(** * powerfulbot: handlers, promises and chat permissions

    A shallow embedding of the update-handling code of the repository
    (telegram/ext/_messagehandler.py, telegram/ext/_chatjoinrequesthandler.py,
    telegram/utils/promise.py, telegram/_chatpermissions.py) together with
    the properties its specification states about it.

    Python objects are modelled by inductive types, dictionaries by
    [gmap string _], frozensets by [gset _], and the mutation of an object
    by returning its new state. *)

From Stdlib Require Import ZArith Bool Lia.
From stdpp Require Import base option list gmap sets strings sorting.

Local Open Scope Z_scope.

(** ** Python values *)

Module Py.

(** Plain values: what a data filter stores in its lists, what a pooled
    function returns, and what can reach a handler instead of an Update. *)
Inductive atom : Type :=
| ANone
| ABool (b : bool)
| AInt (z : Z)
| AStr (s : string).

#[global] Instance atom_eq_dec : EqDecision atom.
Proof. solve_decision. Defined.

(** The exception classes the code can tell apart.  [except Exception]
    catches every class deriving from [Exception]; [KeyboardInterrupt],
    [SystemExit] and [GeneratorExit] derive from [BaseException] only. *)
Inductive exc_class : Type :=
| KeyboardInterrupt
| SystemExit
| GeneratorExit
| ExceptionSubclass (name : string).

Record exc : Type := Exc { exc_cls : exc_class; exc_msg : string }.

#[global] Instance exc_class_eq_dec : EqDecision exc_class.
Proof. solve_decision. Defined.
#[global] Instance exc_eq_dec : EqDecision exc.
Proof. solve_decision. Defined.

(** [isinstance(e, Exception)] *)
Definition isinstance_Exception (e : exc) : bool :=
  match exc_cls e with
  | ExceptionSubclass _ => true
  | _ => false
  end.

End Py.

(** ** The telegram objects the handlers look at

    Only the attributes read by the handlers are kept. *)

Module Telegram.

Record Chat : Type := { chat_id : Z }.
Record User : Type := { user_id : Z; username : option string }.
Record ChatJoinRequest : Type := { chat : Chat; from_user : User }.
Record Message : Type := { message_id : Z; text : option string }.

Record Update : Type := {
  update_id : Z;
  message : option Message;
  edited_message : option Message;
  channel_post : option Message;
  edited_channel_post : option Message;
  chat_join_request : option ChatJoinRequest
}.

(** What [check_update(self, update: object)] can be handed:
    an [Update] or anything else. *)
Inductive object : Type :=
| OUpdate (u : Update)
| OMessage (m : Message)
| OAtom (a : Py.atom).

(** [isinstance(o, Update)] as a partial projection. *)
Definition as_Update (o : object) : option Update :=
  match o with
  | OUpdate u => Some u
  | _ => None
  end.

End Telegram.

Import Telegram.

(** ** Check results: [Optional[Union[bool, Dict[str, list]]]] *)

Abbreviation FilterDataDict := (gmap string (list Py.atom)).

Inductive CheckResult : Type :=
| RNone
| RBool (b : bool)
| RDict (d : FilterDataDict).

#[global] Instance CheckResult_eq_dec : EqDecision CheckResult.
Proof. solve_decision. Defined.

(** Python truth value: [None], [False] and the empty dict are falsy. *)
Definition truthy (r : CheckResult) : bool :=
  match r with
  | RNone => false
  | RBool b => b
  | RDict d => bool_decide (d ≠ ∅)
  end.

(** [x or y] *)
Definition py_or (x y : CheckResult) : CheckResult :=
  if truthy x then x else y.

(** [isinstance(r, dict)] as a partial projection. *)
Definition as_dict (r : CheckResult) : option FilterDataDict :=
  match r with
  | RDict d => Some d
  | _ => None
  end.

(** A value that is [False], [True] or a mapping. *)
Definition is_MatchResult (r : CheckResult) : bool :=
  match r with
  | RNone => false
  | RBool _ => true
  | RDict _ => true
  end.

(** ** Filters

    The filter module (telegram/ext/filters.py) is not among the sources;
    this part follows sections 3 and 4.1 of the specification. *)

Module Filters.

(** Modelled from the spec: the result type of the filters, which are not
    among the sources.  A match result is false, true or a mapping of named
    extracted values. *)
Inductive MatchResult : Type :=
| MFalse
| MTrue
| MData (d : FilterDataDict).

#[global] Instance MatchResult_eq_dec : EqDecision MatchResult.
Proof. solve_decision. Defined.

Definition to_check (r : MatchResult) : CheckResult :=
  match r with
  | MFalse => RBool false
  | MTrue => RBool true
  | MData d => RDict d
  end.

Definition matched (r : MatchResult) : bool := truthy (to_check r).

(** Modelled from the spec: the merge of two match results, for the filters
    that are not among the sources.  True and true give true; two mappings
    are merged and on a key held by both the value of the second (the last
    writer) is kept; a mapping and a plain true give the mapping. *)
Definition merge (a b : MatchResult) : MatchResult :=
  match a, b with
  | MFalse, _ => MFalse
  | _, MFalse => MFalse
  | MTrue, MTrue => MTrue
  | MTrue, MData d => MData d
  | MData d, MTrue => MData d
  | MData d1, MData d2 => MData (d2 ∪ d1)
  end.

Inductive Filter : Type :=
| Prim (name : string) (p : Update → MatchResult)
| And (f g : Filter)
| Or (f g : Filter)
| Not (f : Filter).

(** Modelled from the spec: the evaluation of a composed filter, for the
    filters that are not among the sources.  AND needs both operands to
    match, merges their results and stops at the first falsy operand; OR
    returns the first non-false result, the left one first; NOT is boolean
    inversion.  Next to the result the names of the primitive filters
    consulted are returned, in order, so that short-circuiting can be
    observed. *)
Fixpoint evaluate (f : Filter) (u : Update) : MatchResult * list string :=
  match f with
  | Prim n p => (p u, [n])
  | And f g =>
      let '(r1, t1) := evaluate f u in
      if matched r1 then
        let '(r2, t2) := evaluate g u in
        (if matched r2 then merge r1 r2 else MFalse, t1 ++ t2)
      else (MFalse, t1)
  | Or f g =>
      let '(r1, t1) := evaluate f u in
      if matched r1 then (r1, t1)
      else
        let '(r2, t2) := evaluate g u in
        (if matched r2 then r2 else MFalse, t1 ++ t2)
  | Not f =>
      let '(r, t) := evaluate f u in
      (if matched r then MFalse else MTrue, t)
  end.

Definition result (f : Filter) (u : Update) : MatchResult := fst (evaluate f u).
Definition consulted (f : Filter) (u : Update) : list string := snd (evaluate f u).

(** A filter object as the handlers use it: through [check_update]. *)
Definition check_update (f : Filter) (u : Update) : CheckResult :=
  to_check (result f u).

(** A message update: an update with a message, an edited message, a
    channel post or an edited channel post. *)
Definition is_message_update (u : Update) : bool :=
  bool_decide (is_Some (message u))
  || bool_decide (is_Some (edited_message u))
  || bool_decide (is_Some (channel_post u))
  || bool_decide (is_Some (edited_channel_post u)).

(** Modelled from the spec: [filters.ALL] is not among the sources.  The
    specification uses it as the filter that lets every message through,
    and the docstring of MessageHandler states what it covers as the
    default filter: all message updates. *)
Definition ALL : Filter :=
  Prim "ALL" (λ u, if is_message_update u then MTrue else MFalse).

(** [is_command c] matches a message whose text is [/c]. *)
Definition is_command (c : string) : Filter :=
  Prim ("is_command:" +:+ c)
       (λ u, match message u with
             | Some m => if bool_decide (text m = Some ("/" +:+ c)) then MTrue else MFalse
             | None => MFalse
             end).

End Filters.

(** ** The callback context *)

(** The context object as the mapping from its attribute names to their
    values. *)
Abbreviation CallbackContext := (gmap string (list Py.atom)).

(** Modelled from the spec: [CallbackContext.update] is not among the
    sources.  Section 4.2 of the specification describes the context as a
    mutable bag into which extracted match data is merged:
    [context.update(data)] sets every key of [data] to its value,
    overwriting an attribute of the same name. *)
Definition context_update (context : CallbackContext) (data : FilterDataDict)
  : CallbackContext := data ∪ context.

(** A handler callback, [callback(update, context)]. *)
Definition HandlerCallback : Type := Update → CallbackContext → Py.atom.

(** ** telegram/ext/_messagehandler.py *)

Module MessageHandler.

(** A filter object is represented by its [check_update] method. *)
Record t : Type := {
  filters : Update → CheckResult;
  callback : HandlerCallback;
  block : bool
}.

Definition __init__ (filters : option (Update → CheckResult))
    (callback : HandlerCallback) (block : bool) : t :=
  {| filters := match filters with
                | Some f => f
                | None => Filters.check_update Filters.ALL
                end;
     callback := callback;
     block := block |}.

Definition check_update (self : t) (update : object) : CheckResult :=
  match as_Update update with
  | Some u => py_or (filters self u) (RBool false)
  | None => RNone
  end.

(** The application argument is not used by the method and is left out. *)
Definition collect_additional_context (self : t) (context : CallbackContext)
    (update : Update) (check_result : CheckResult) : CallbackContext :=
  match as_dict check_result with
  | Some d => context_update context d
  | None => context
  end.

End MessageHandler.

(** ** telegram/ext/_chatjoinrequesthandler.py *)

(** [SCT[T] = Union[T, Collection[T]]] *)
Inductive SCT (A : Type) : Type :=
| One (a : A)
| Many (l : list A).
Arguments One {A} a.
Arguments Many {A} l.

(** [s.startswith(p)] and [s[1:]] *)
Definition startswith (s p : string) : bool := String.prefix p s.
Definition slice_from_1 (s : string) : string :=
  match s with
  | EmptyString => EmptyString
  | String _ rest => rest
  end.

Module ChatJoinRequestHandler.

Record t : Type := {
  callback : HandlerCallback;
  block : bool;
  _chat_ids : gset Z;
  _usernames : gset string
}.

Definition _parse_chat_id (chat_id : option (SCT Z)) : gset Z :=
  match chat_id with
  | None => ∅
  | Some (One c) => {[ c ]}
  | Some (Many l) => list_to_set l
  end.

(** [usr[1:] if usr.startswith("@") else usr] *)
Definition strip_at (usr : string) : string :=
  if startswith usr "@" then slice_from_1 usr else usr.

Definition _parse_username (username : option (SCT string)) : gset string :=
  match username with
  | None => ∅
  | Some (One usr) => {[ strip_at usr ]}
  | Some (Many l) => list_to_set (strip_at <$> l)
  end.

Definition __init__ (callback : HandlerCallback) (chat_id : option (SCT Z))
    (username : option (SCT string)) (block : bool) : t :=
  {| callback := callback;
     block := block;
     _chat_ids := _parse_chat_id chat_id;
     _usernames := _parse_username username |}.

(** [name in usernames], where the user may have no username. *)
Definition username_in (name : option string) (usernames : gset string) : bool :=
  match name with
  | Some n => bool_decide (n ∈ usernames)
  | None => false
  end.

Definition check_update (self : t) (update : object) : bool :=
  match as_Update update with
  | Some u =>
      match chat_join_request u with
      | Some req =>
          if bool_decide (_chat_ids self = ∅) && bool_decide (_usernames self = ∅)
          then true
          else if bool_decide (chat_id (chat req) ∈ _chat_ids self) then true
          else if username_in (username (from_user req)) (_usernames self) then true
          else false
      | None => false
      end
  | None => false
  end.

End ChatJoinRequestHandler.

(** ** telegram/utils/promise.py *)

Module Promise.

(** What calling [pooled_function] on [args] and [kwargs] does: it
    returns a value or raises. *)
Inductive outcome : Type :=
| Returns (v : Py.atom)
| Raises (e : Py.exc).

Definition callable : Type := list Py.atom → gmap string Py.atom → outcome.

(** [done] is the flag of the [threading.Event]. *)
Record t : Type := {
  pooled_function : callable;
  args : list Py.atom;
  kwargs : gmap string Py.atom;
  done : bool;
  _result : Py.atom;
  _exception : option Py.exc
}.

Definition __init__ (pooled_function : callable) (args : list Py.atom)
    (kwargs : gmap string Py.atom) : t :=
  {| pooled_function := pooled_function;
     args := args;
     kwargs := kwargs;
     done := false;
     _result := Py.ANone;
     _exception := None |}.

Definition set_result (self : t) (v : Py.atom) : t :=
  {| pooled_function := pooled_function self; args := args self;
     kwargs := kwargs self; done := done self;
     _result := v; _exception := _exception self |}.

Definition set_exception (self : t) (e : Py.exc) : t :=
  {| pooled_function := pooled_function self; args := args self;
     kwargs := kwargs self; done := done self;
     _result := _result self; _exception := Some e |}.

(** [self.done.set()] *)
Definition done_set (self : t) : t :=
  {| pooled_function := pooled_function self; args := args self;
     kwargs := kwargs self; done := true;
     _result := _result self; _exception := _exception self |}.

(** The effect of a method call: the promise afterwards, the lines
    sent to the logger, and the exception leaving the call, if any. *)
Record effect : Type := {
  after : t;
  logged : list string;
  propagated : option Py.exc
}.

(** [try: ... except Exception as exc: ... finally: self.done.set()] *)
Definition run (self : t) : effect :=
  match pooled_function self (args self) (kwargs self) with
  | Returns v =>
      {| after := done_set (set_result self v); logged := []; propagated := None |}
  | Raises exc =>
      if Py.isinstance_Exception exc then
        {| after := done_set (set_exception self exc);
           logged := ["An uncaught error was raised while running the promise"];
           propagated := None |}
      else
        {| after := done_set self; logged := []; propagated := Some exc |}
  end.

(** [__call__] *)
Definition call (self : t) : effect := run self.

(** [run] called [n] times in a row, as long as no call lets an
    exception out. *)
Fixpoint run_times (n : nat) (self : t) : effect :=
  match n with
  | O => {| after := self; logged := []; propagated := None |}
  | S n' =>
      let e := run self in
      match propagated e with
      | Some _ => e
      | None =>
          let e' := run_times n' (after e) in
          {| after := after e'; logged := logged e ++ logged e';
             propagated := propagated e' |}
      end
  end.

(** What [result(timeout)] does in a caller with no other thread running:
    it returns, raises, or waits for ever on an event nobody sets. *)
Inductive result_outcome : Type :=
| ResultReturns (v : Py.atom)
| ResultRaises (e : Py.exc)
| ResultWaits.

Definition result (self : t) (timeout : option Z) : result_outcome :=
  if negb (done self) && bool_decide (timeout = None) then ResultWaits
  else
    match _exception self with
    | Some e => ResultRaises e
    | None => ResultReturns (_result self)
    end.

(** The [exception] property. *)
Definition exception (self : t) : option Py.exc := _exception self.

(** The state of a promise whose pooled function is [f], called on [a]
    and [k], once at least one call of [run] has returned. *)
Definition settled (f : callable) (a : list Py.atom) (k : gmap string Py.atom)
    (p : t) : Prop :=
  done p = true
  ∧ match f a k with
    | Returns v => _result p = v ∧ _exception p = None
    | Raises e => _exception p = Some e
    end.

End Promise.

(** ** telegram/_chatpermissions.py *)

Module ChatPermissions.

(** Every permission is [True], [False] or [None]. *)
Record t : Type := {
  can_send_messages : option bool;
  can_send_media_messages : option bool;
  can_send_polls : option bool;
  can_send_other_messages : option bool;
  can_add_web_page_previews : option bool;
  can_change_info : option bool;
  can_invite_users : option bool;
  can_pin_messages : option bool;
  can_manage_topics : option bool;
  api_kwargs : option (gmap string Py.atom)
}.

Definition __init__
    (can_send_messages can_send_media_messages can_send_polls
     can_send_other_messages can_add_web_page_previews can_change_info
     can_invite_users can_pin_messages can_manage_topics : option bool)
    (api_kwargs : option (gmap string Py.atom)) : t :=
  {| can_send_messages := can_send_messages;
     can_send_media_messages := can_send_media_messages;
     can_send_polls := can_send_polls;
     can_send_other_messages := can_send_other_messages;
     can_add_web_page_previews := can_add_web_page_previews;
     can_change_info := can_change_info;
     can_invite_users := can_invite_users;
     can_pin_messages := can_pin_messages;
     can_manage_topics := can_manage_topics;
     api_kwargs := api_kwargs |}.

Definition _id_attrs (self : t) : list (option bool) :=
  [ can_send_messages self;
    can_send_media_messages self;
    can_send_polls self;
    can_send_other_messages self;
    can_add_web_page_previews self;
    can_change_info self;
    can_invite_users self;
    can_pin_messages self;
    can_manage_topics self ].

Definition all_permissions : t :=
  __init__ (Some true) (Some true) (Some true) (Some true) (Some true)
           (Some true) (Some true) (Some true) (Some true) None.

Definition no_permissions : t :=
  __init__ (Some false) (Some false) (Some false) (Some false) (Some false)
           (Some false) (Some false) (Some false) (Some false) None.

(** Modelled from the spec: the base class TelegramObject, which defines
    [__eq__], is not among the sources.  As the class docstring says, two
    objects are equal when their identifying attributes [_id_attrs] are. *)
Definition eq (a b : t) : bool := bool_decide (_id_attrs a = _id_attrs b).

End ChatPermissions.

(** ** The dispatcher

    The dispatcher is not among the sources; this part follows sections 3
    and 4.4 of the specification.  A dispatch pass is described by the
    sequence of its events. *)

Module Dispatcher.

(** Modelled from the spec: the handler as the dispatcher, which is not
    among the sources, sees it: a name for its callback, the [matches]
    function and the block flag. *)
Record Handler : Type := {
  name : string;
  matches : Update → CheckResult;
  block : bool
}.

Definition of_MessageHandler (n : string) (h : MessageHandler.t) : Handler :=
  {| name := n;
     matches := λ u, MessageHandler.check_update h (OUpdate u);
     block := MessageHandler.block h |}.

Definition of_ChatJoinRequestHandler (n : string) (h : ChatJoinRequestHandler.t)
  : Handler :=
  {| name := n;
     matches := λ u, RBool (ChatJoinRequestHandler.check_update h (OUpdate u));
     block := ChatJoinRequestHandler.block h |}.

(** The handler table: priority of a group to its handlers in
    registration order. *)
Abbreviation table := (gmap Z (list Handler)).

(** Modelled from the spec: registration, for the dispatcher that is not
    among the sources.  A handler is put at the end of its group. *)
Definition add_handler (d : table) (h : Handler) (group : Z) : table :=
  <[group := default [] (d !! group) ++ [h]]> d.

(** Modelled from the spec: the order of the groups, for the dispatcher
    that is not among the sources: the priorities in ascending order. *)
Definition groups (d : table) : list Z := merge_sort Z.le (elements (dom d)).

(** [Offered g i]: handler number [i] of group [g] was asked whether it
    matches; [Invoked g i n r]: it was invoked with match result [r]. *)
Inductive event : Type :=
| Offered (group : Z) (i : nat)
| Invoked (group : Z) (i : nat) (n : string) (r : CheckResult).

#[global] Instance event_eq_dec : EqDecision event.
Proof. solve_decision. Defined.

(** Modelled from the spec: the scan of one group, for the dispatcher that
    is not among the sources.  The handlers are asked in registration order;
    the first one with a truthy result is invoked and the scan stops. *)
Fixpoint scan_group (g : Z) (i : nat) (hs : list Handler) (u : Update) : list event :=
  match hs with
  | [] => []
  | h :: hs' =>
      let r := matches h u in
      if truthy r then [Offered g i; Invoked g i (name h) r]
      else Offered g i :: scan_group g (S i) hs' u
  end.

(** Modelled from the spec: a dispatch pass, for the dispatcher that is not
    among the sources.  Every group is scanned, in ascending order of
    priority, whatever happened in the groups before it. *)
Definition process_update (d : table) (u : Update) : list event :=
  g ← groups d; scan_group g 0%nat (default [] (d !! g)) u.

(** The first handler of a group, in registration order, whose result
    on [u] is truthy, with its position. *)
Definition first_match (hs : list Handler) (u : Update) : option (nat * Handler) :=
  list_find (λ h, truthy (matches h u) = true) hs.

(** The events of one group in closed form: the handlers up to the first
    match are offered the update and the first match is invoked. *)
Definition group_events (g : Z) (hs : list Handler) (u : Update) : list event :=
  match first_match hs u with
  | Some (j, h) =>
      (Offered g <$> seq 0 (S j)) ++ [Invoked g j (name h) (matches h u)]
  | None => Offered g <$> seq 0 (length hs)
  end.

Definition invoked (tr : list event) : list string :=
  omap (λ e, match e with Invoked _ _ n _ => Some n | Offered _ _ => None end) tr.

End Dispatcher.

(** ** examples/error_handler.py *)

Module Html.

Import Stdlib.Strings.Ascii.

(** The double quote character. *)
Definition dquote : Ascii.ascii := "034"%char.

(** [s.replace(old, new)] for a pattern of one character: every occurrence
    is replaced, from left to right. *)
Fixpoint replace_char (old : Ascii.ascii) (new : string) (s : string) : string :=
  match s with
  | EmptyString => EmptyString
  | String c rest =>
      if Ascii.eqb c old then new +:+ replace_char old new rest
      else String c (replace_char old new rest)
  end.

(** [html.escape(s)] of the Python library, with its default [quote=True]:
    the ampersand is replaced first, then the angle brackets and the two
    quotes. *)
Definition escape (s : string) : string :=
  replace_char "'" "&#x27;"
    (replace_char dquote "&quot;"
       (replace_char ">" "&gt;"
          (replace_char "<" "&lt;"
             (replace_char "&" "&amp;" s)))).

(** The number of occurrences of a character. *)
Fixpoint count_char (c : Ascii.ascii) (s : string) : nat :=
  match s with
  | EmptyString => O
  | String c' rest => (if Ascii.eqb c' c then 1 else 0)%nat + count_char c rest
  end.

End Html.

Module ErrorHandler.

Import Stdlib.Strings.Ascii.

Definition DEVELOPER_CHAT_ID : Z := 208589966.

Inductive ParseMode : Type := HTML | MARKDOWN | MARKDOWN_V2.

(** What the handler gets from its collaborators: [update.to_json()],
    [str(context.chat_data)], [str(context.user_data)], [context.error] and
    the lines returned by [traceback.format_exception]. *)
Record rendered : Type := {
  update_json : string;
  chat_data : string;
  user_data : string;
  error : Py.exc;
  tb_list : list string
}.

(** A call of [context.bot.send_message]. *)
Record sent_message : Type := {
  chat_id : Z;
  text : string;
  parse_mode : ParseMode
}.

(** What the handler does: the record sent to the logger and the message
    sent to the developer. *)
Record effects : Type := {
  logged : string * Py.exc;
  sent : sent_message
}.

Definition nl : string := String "010"%char EmptyString.

(** The template with its four fields filled in. *)
Definition message (r : rendered) : string :=
  let tb := String.concat "" (tb_list r) in
  "An exception was raised while handling an update" +:+ nl
  +:+ "<pre>update = " +:+ Html.escape (update_json r) +:+ "</pre>" +:+ nl +:+ nl
  +:+ "<pre>context.chat_data = " +:+ Html.escape (chat_data r) +:+ "</pre>" +:+ nl +:+ nl
  +:+ "<pre>context.user_data = " +:+ Html.escape (user_data r) +:+ "</pre>" +:+ nl +:+ nl
  +:+ "<pre>" +:+ Html.escape tb +:+ "</pre>".

Definition error_handler (r : rendered) : effects :=
  {| logged := ("Exception while handling an update:", error r);
     sent := {| chat_id := DEVELOPER_CHAT_ID;
                text := message r;
                parse_mode := HTML |} |}.

End ErrorHandler.

(** ** tests/test_official.py *)

Module TestOfficial.

Import Stdlib.Strings.Ascii.

(** [s.split(sep, 1)[0]] for a separator of one character: the part of [s]
    before the first separator, all of [s] when there is none. *)
Fixpoint split_first (sep : Ascii.ascii) (s : string) : string :=
  match s with
  | EmptyString => EmptyString
  | String c rest =>
      if Ascii.eqb c sep then EmptyString else String c (split_first sep rest)
  end.

Definition is_parameter_required_by_tg (field : string) : bool :=
  if bool_decide (field ∈ ["Required"; "Yes"]) then true
  else if bool_decide (split_first "." field = "Optional") then false
  else true.

Definition ignored_param_requirements : gmap string (gset string) :=
  list_to_map
    [ ("send_location", {[ "latitude"; "longitude" ]});
      ("edit_message_live_location", {[ "latitude"; "longitude" ]});
      ("send_venue", {[ "latitude"; "longitude"; "title"; "address" ]});
      ("send_contact", {[ "phone_number"; "first_name" ]});
      ("upload_sticker_file", {[ "sticker"; "sticker_format" ]});
      ("create_new_sticker_set", {[ "stickers"; "sticker_format" ]});
      ("add_sticker_to_set", {[ "sticker" ]});
      ("InlineQueryResultPhoto", {[ "thumbnail_url" ]});
      ("InlineQueryResultGif", {[ "thumbnail_url" ]});
      ("InlineQueryResultMpeg4Gif", {[ "thumbnail_url" ]});
      ("InlineQueryResultVideo", {[ "thumbnail_url"; "title" ]}) ].

(** [ignored_param_requirements.get(method_or_obj_name, {})] *)
Definition ignored_for (method_or_obj_name : string) : gset string :=
  default ∅ (ignored_param_requirements !! method_or_obj_name).

(** An [inspect.Parameter]: its name and its default, [None] standing for
    [inspect.Parameter.empty]. *)
Record InspectParameter : Type := {
  name : string;
  default : option Py.atom
}.

(** A value, or the IndexError of a subscript out of range. *)
Inductive raising (A : Type) : Type :=
| Value (a : A)
| IndexError.
Arguments Value {A} a.
Arguments IndexError {A}.

Definition check_required_param (param_desc : list string) (param : InspectParameter)
    (method_or_obj_name : string) : raising bool :=
  let is_ours_required := bool_decide (default param = None) in
  match param_desc !! 2%nat with
  | None => IndexError
  | Some field =>
      let telegram_requires := is_parameter_required_by_tg field in
      if bool_decide (name param ∈ ignored_for method_or_obj_name) then Value true
      else Value (Bool.eqb telegram_requires is_ours_required)
  end.

End TestOfficial.

(** ** Sample updates *)

(** An update that is a join request and carries no message. *)
Definition join_request_update (update_id chat user : Z) (name : option string)
  : Update :=
  {| update_id := update_id;
     message := None; edited_message := None;
     channel_post := None; edited_channel_post := None;
     chat_join_request :=
       Some {| chat := {| chat_id := chat |};
               from_user := {| user_id := user; username := name |} |} |}.

(** An update that carries a text message. *)
Definition text_update (update_id : Z) (txt : string) : Update :=
  {| update_id := update_id;
     message := Some {| message_id := update_id; text := Some txt |};
     edited_message := None; channel_post := None; edited_channel_post := None;
     chat_join_request := None |}.

(** ** Sample pooled functions *)

Definition ValueError : Py.exc := Py.Exc (Py.ExceptionSubclass "ValueError") "bad value".
Definition interrupt : Py.exc := Py.Exc Py.KeyboardInterrupt "".

Definition return_42 : Promise.callable := λ _ _, Promise.Returns (Py.AInt 42).
Definition raise_ValueError : Promise.callable := λ _ _, Promise.Raises ValueError.
Definition raise_KeyboardInterrupt : Promise.callable := λ _ _, Promise.Raises interrupt.

(** ** Sample filters and handlers *)

Definition data_filter (n key : string) (v : Z) : Filters.Filter :=
  Filters.Prim n (λ _, Filters.MData {[ key := [Py.AInt v] ]}).

Definition never : Filters.Filter := Filters.Prim "never" (λ _, Filters.MFalse).

Definition no_callback : HandlerCallback := λ _ _, Py.ANone.

Definition data_handler : MessageHandler.t :=
  MessageHandler.__init__
    (Some (Filters.check_update (data_filter "f" "k" 1))) no_callback true.

(** The handlers of the scenario of section 8 of the specification:
    A (group 0, the command start), B (group 0, ALL), C (group 1, ALL). *)
Definition handler_A : Dispatcher.Handler :=
  Dispatcher.of_MessageHandler "A"
    (MessageHandler.__init__
       (Some (Filters.check_update (Filters.is_command "start"))) no_callback true).
Definition handler_B : Dispatcher.Handler :=
  Dispatcher.of_MessageHandler "B" (MessageHandler.__init__ None no_callback true).
Definition handler_C : Dispatcher.Handler :=
  Dispatcher.of_MessageHandler "C" (MessageHandler.__init__ None no_callback true).

Definition scenario : Dispatcher.table :=
  Dispatcher.add_handler
    (Dispatcher.add_handler (Dispatcher.add_handler ∅ handler_C 1) handler_A 0)
    handler_B 0.

(** * Properties *)

(** ** MessageHandler *)

Lemma truthy_is_MatchResult (r : CheckResult) :
  truthy r = true → is_MatchResult r = true.
Proof. by destruct r. Qed.

Lemma py_or_False_is_MatchResult (r : CheckResult) :
  is_MatchResult (py_or r (RBool false)) = true.
Proof.
  unfold py_or. destruct (truthy r) eqn:Hr; [|done].
  by apply truthy_is_MatchResult.
Qed.

Lemma py_or_False_dict (r : CheckResult) (d : FilterDataDict) :
  py_or r (RBool false) = RDict d → r = RDict d ∧ d ≠ ∅.
Proof.
  unfold py_or. destruct (truthy r) eqn:Hr; [|done].
  intros ->. split; [done|]. simpl in Hr. by apply bool_decide_eq_true in Hr.
Qed.

(** C1, as the code has it: on an object that is not an Update the method
    returns None, which is neither False, True nor a mapping.  Here the
    handler is the default one and the object is the string "hello". *)
Lemma MessageHandler_check_update_non_update_counterexample :
  ¬ (∀ (self : MessageHandler.t) (o : object),
       is_MatchResult (MessageHandler.check_update self o) = true).
Proof.
  intros H.
  specialize (H (MessageHandler.__init__ None (λ _ _, Py.ANone) true)
                (OAtom (Py.AStr "hello"))).
  discriminate H.
Qed.

(** C1 (amended): for every Update [u], check_update returns the result of
    the handler's filter on [u] when that result is truthy and False
    otherwise, so the value is False, True or a non-empty mapping; for every
    object that is not an Update it returns None. *)
Theorem MessageHandler_check_update_result (self : MessageHandler.t) (o : object) :
  match as_Update o with
  | Some u =>
      MessageHandler.check_update self o
        = (if truthy (MessageHandler.filters self u)
           then MessageHandler.filters self u else RBool false)
      ∧ is_MatchResult (MessageHandler.check_update self o) = true
      ∧ (∀ d, MessageHandler.check_update self o = RDict d → d ≠ ∅)
  | None => MessageHandler.check_update self o = RNone
  end.
Proof.
  unfold MessageHandler.check_update.
  destruct (as_Update o) as [u|]; [|done].
  split_and!.
  - done.
  - apply py_or_False_is_MatchResult.
  - intros d Hd. by apply py_or_False_dict in Hd as [_ ?].
Qed.

Lemma MessageHandler_check_update_result_witness :
  MessageHandler.check_update data_handler (OUpdate (text_update 1 "hi"))
    = RDict {[ "k" := [Py.AInt 1] ]}
  ∧ ({[ "k" := [Py.AInt 1] ]} : FilterDataDict) ≠ ∅
  ∧ MessageHandler.check_update data_handler (OAtom (Py.AInt 3)) = RNone.
Proof.
  pose proof (MessageHandler_check_update_result data_handler
                (OUpdate (text_update 1 "hi"))) as H.
  simpl in H. destruct H as (H1 & _ & H3).
  split; [exact H1|]. split; [apply H3; reflexivity|].
  exact (MessageHandler_check_update_result data_handler (OAtom (Py.AInt 3))).
Defined.

(** C5: collect_additional_context changes the context exactly when the
    check result is a mapping: every key of the mapping then holds the
    mapping's value and every other attribute keeps its value; for a boolean
    or None the context is returned unchanged. *)
Theorem MessageHandler_collect_additional_context
    (self : MessageHandler.t) (context : CallbackContext) (update : Update)
    (check_result : CheckResult) :
  let context' :=
    MessageHandler.collect_additional_context self context update check_result in
  match check_result with
  | RDict d =>
      ∀ k, context' !! k = match d !! k with
                           | Some v => Some v
                           | None => context !! k
                           end
  | RBool _ | RNone => context' = context
  end.
Proof.
  unfold MessageHandler.collect_additional_context.
  destruct check_result as [| b | d]; simpl; [done..|].
  intros k. unfold context_update. rewrite lookup_union.
  destruct (d !! k), (context !! k); done.
Qed.

Lemma ALL_check_update (u : Update) :
  Filters.check_update Filters.ALL u = RBool (Filters.is_message_update u).
Proof.
  unfold Filters.check_update, Filters.result, Filters.ALL. cbn.
  by destruct (Filters.is_message_update u).
Qed.

(** C8, as the code has it: the default handler does not accept every
    Update; a join request without a message gets False. *)
Lemma MessageHandler_default_filter_counterexample :
  ¬ (∀ (callback : HandlerCallback) (block : bool) (u : Update),
       truthy (MessageHandler.check_update
                 (MessageHandler.__init__ None callback block) (OUpdate u)) = true).
Proof.
  intros H.
  specialize (H (λ _ _, Py.ANone) true (join_request_update 1 (-100) 7 (Some "ann"))).
  vm_compute in H. discriminate H.
Qed.

(** C8 (amended): with [filters=None] the handler's filter is
    [filters.ALL]; check_update then returns True on every Update that
    carries a message, an edited message, a channel post or an edited
    channel post, and False on every other Update. *)
Theorem MessageHandler_default_filter
    (callback : HandlerCallback) (block : bool) :
  let h := MessageHandler.__init__ None callback block in
  MessageHandler.filters h = Filters.check_update Filters.ALL
  ∧ ∀ u : Update,
      MessageHandler.check_update h (OUpdate u)
        = RBool (Filters.is_message_update u)
      ∧ truthy (MessageHandler.check_update h (OUpdate u))
        = Filters.is_message_update u.
Proof.
  split; [done|]. intros u.
  unfold MessageHandler.check_update, py_or. simpl.
  rewrite ALL_check_update. by destruct (Filters.is_message_update u).
Qed.

(** ** Promise *)

Section PromiseRun.

Import Promise.

Lemma run_done (self : t) : done (after (run self)) = true.
Proof.
  unfold run. destruct (pooled_function self _ _) as [v|e]; [done|].
  by destruct (Py.isinstance_Exception e).
Qed.

Lemma run_keeps_call (self : t) :
  pooled_function (after (run self)) = pooled_function self
  ∧ args (after (run self)) = args self
  ∧ kwargs (after (run self)) = kwargs self.
Proof.
  unfold run. destruct (pooled_function self _ _) as [v|e]; [done|].
  by destruct (Py.isinstance_Exception e).
Qed.

Lemma run_Returns (self : t) (v : Py.atom) :
  pooled_function self (args self) (kwargs self) = Returns v →
  propagated (run self) = None
  ∧ _result (after (run self)) = v
  ∧ _exception (after (run self)) = _exception self.
Proof. unfold run. by intros ->. Qed.

Lemma run_Raises_Exception (self : t) (e : Py.exc) :
  pooled_function self (args self) (kwargs self) = Raises e →
  Py.isinstance_Exception e = true →
  propagated (run self) = None ∧ _exception (after (run self)) = Some e.
Proof. unfold run. by intros -> ->. Qed.

Lemma run_Raises_other (self : t) (e : Py.exc) :
  pooled_function self (args self) (kwargs self) = Raises e →
  Py.isinstance_Exception e = false →
  propagated (run self) = Some e
  ∧ _exception (after (run self)) = _exception self
  ∧ _result (after (run self)) = _result self.
Proof. unfold run. by intros -> ->. Qed.

Lemma run_times_settled (f : callable) (a : list Py.atom)
    (k : gmap string Py.atom) (n : nat) :
  ∀ self : t,
    pooled_function self = f → args self = a → kwargs self = k →
    (∀ v, f a k = Returns v → _exception self = None) →
    propagated (run_times (S n) self) = None →
    settled f a k (after (run_times (S n) self)).
Proof.
  induction n as [|n IH]; intros self Hf Ha Hk Hnone.
  - simpl. destruct (propagated (run self)) eqn:Hp; [intros ?; congruence|]. intros _.
    simpl. split; [apply run_done|].
    destruct (f a k) as [v|e] eqn:Hcall; subst f a k.
    + destruct (run_Returns self v Hcall) as (_ & -> & ->). eauto.
    + destruct (Py.isinstance_Exception e) eqn:He.
      * by destruct (run_Raises_Exception self e Hcall He) as [_ ->].
      * destruct (run_Raises_other self e Hcall He) as [Hq _]. congruence.
  - change (run_times (S (S n)) self) with
      (let e := run self in
       match propagated e with
       | Some _ => e
       | None =>
           let e' := run_times (S n) (after e) in
           {| after := after e'; logged := logged e ++ logged e';
              propagated := propagated e' |}
       end).
    cbv zeta. destruct (propagated (run self)) eqn:Hp; [intros ?; congruence|].
    cbn [propagated after]. intros Hrest.
    destruct (run_keeps_call self) as (Hf' & Ha' & Hk').
    apply IH; [congruence..| |done].
    intros v Hv. subst f a k.
    destruct (run_Returns self v Hv) as (_ & _ & ->). eauto.
Qed.

End PromiseRun.

(** C2, as the code has it: [except Exception] does not catch an exception
    that derives from BaseException only.  A pooled function interrupted
    from the keyboard lets the exception out of [run] and the exception slot
    stays empty. *)
Lemma Promise_run_propagates_counterexample :
  ¬ (∀ (f : Promise.callable) (a : list Py.atom) (k : gmap string Py.atom)
       (e : Py.exc),
       f a k = Promise.Raises e →
       Promise.propagated (Promise.run (Promise.__init__ f a k)) = None
       ∧ Promise._exception (Promise.after (Promise.run (Promise.__init__ f a k)))
         = Some e).
Proof.
  intros H.
  destruct (H raise_KeyboardInterrupt [] ∅ interrupt eq_refl) as [Hp _].
  vm_compute in Hp. discriminate Hp.
Qed.

(** C2 (amended): when [run] is over the done event is set, in every case.
    An exception of pooled_function that is an instance of Exception does
    not leave [run]: it is stored in the exception slot.  An exception that
    is not an instance of Exception (KeyboardInterrupt, SystemExit,
    GeneratorExit) leaves [run] and the slot is not written.  When
    pooled_function returns, [run] returns and the value is stored. *)
Theorem Promise_run_stores_Exception (self : Promise.t) :
  Promise.done (Promise.after (Promise.run self)) = true
  ∧ (∀ e : Py.exc,
       Promise.pooled_function self (Promise.args self) (Promise.kwargs self)
         = Promise.Raises e →
       Py.isinstance_Exception e = true →
       Promise.propagated (Promise.run self) = None
       ∧ Promise._exception (Promise.after (Promise.run self)) = Some e)
  ∧ (∀ e : Py.exc,
       Promise.pooled_function self (Promise.args self) (Promise.kwargs self)
         = Promise.Raises e →
       Py.isinstance_Exception e = false →
       Promise.propagated (Promise.run self) = Some e
       ∧ Promise._exception (Promise.after (Promise.run self))
         = Promise._exception self)
  ∧ (∀ v : Py.atom,
       Promise.pooled_function self (Promise.args self) (Promise.kwargs self)
         = Promise.Returns v →
       Promise.propagated (Promise.run self) = None
       ∧ Promise._result (Promise.after (Promise.run self)) = v
       ∧ Promise._exception (Promise.after (Promise.run self))
         = Promise._exception self).
Proof.
  split_and!.
  - apply run_done.
  - apply run_Raises_Exception.
  - intros e Hcall He. by destruct (run_Raises_other self e Hcall He) as (? & ? & _).
  - apply run_Returns.
Qed.

Lemma Promise_run_stores_Exception_witness :
  Promise.done (Promise.after (Promise.run (Promise.__init__ raise_ValueError [] ∅)))
    = true
  ∧ Promise.propagated (Promise.run (Promise.__init__ raise_ValueError [] ∅)) = None
  ∧ Promise._exception
      (Promise.after (Promise.run (Promise.__init__ raise_ValueError [] ∅)))
    = Some ValueError.
Proof.
  destruct (Promise_run_stores_Exception (Promise.__init__ raise_ValueError [] ∅))
    as (Hdone & Hexc & _).
  split; [exact Hdone|].
  apply Hexc; reflexivity.
Defined.

(** ** ChatJoinRequestHandler *)

Section ChatJoinRequest.

Import ChatJoinRequestHandler.

Lemma username_in_spec (name : option string) (usernames : gset string) :
  username_in name usernames = true ↔ ∃ n, name = Some n ∧ n ∈ usernames.
Proof.
  destruct name as [n|]; simpl.
  - rewrite bool_decide_eq_true. split; [by eauto|].
    by intros (n' & [= ->] & ?).
  - split; [done|]. by intros (n' & ? & _).
Qed.

(** What the handler accepts in a join request. *)
Lemma check_update_join_request (self : t) (u : Update) (req : ChatJoinRequest) :
  chat_join_request u = Some req →
  check_update self (OUpdate u) = true
  ↔ (_chat_ids self = ∅ ∧ _usernames self = ∅)
    ∨ chat_id (chat req) ∈ _chat_ids self
    ∨ ∃ n, username (from_user req) = Some n ∧ n ∈ _usernames self.
Proof.
  intros Hreq. unfold check_update. simpl. rewrite Hreq.
  rewrite <- username_in_spec.
  destruct (decide (_chat_ids self = ∅)) as [Hc|Hc];
    destruct (decide (_usernames self = ∅)) as [Hn|Hn];
    destruct (decide (chat_id (chat req) ∈ _chat_ids self)) as [Hi|Hi];
    rewrite ?(bool_decide_eq_true_2 _ Hc), ?(bool_decide_eq_false_2 _ Hc),
      ?(bool_decide_eq_true_2 _ Hn), ?(bool_decide_eq_false_2 _ Hn),
      ?(bool_decide_eq_true_2 _ Hi), ?(bool_decide_eq_false_2 _ Hi); simpl;
    destruct (username_in _ _); intuition congruence.
Qed.



End ChatJoinRequest.

(** C4: check_update returns True exactly on an Update with a
    chat_join_request for which no chat id and no username is configured, or
    whose chat id is among the configured chat ids, or whose user has a
    username among the configured usernames; on every other object,
    whether an Update without chat_join_request or not an Update at all, it
    returns False. *)
Theorem ChatJoinRequestHandler_check_update (self : ChatJoinRequestHandler.t)
    (o : object) :
  (ChatJoinRequestHandler.check_update self o = true
   ↔ ∃ (u : Update) (req : ChatJoinRequest),
       o = OUpdate u ∧ chat_join_request u = Some req
       ∧ ((ChatJoinRequestHandler._chat_ids self = ∅
           ∧ ChatJoinRequestHandler._usernames self = ∅)
          ∨ chat_id (chat req) ∈ ChatJoinRequestHandler._chat_ids self
          ∨ ∃ n, username (from_user req) = Some n
                 ∧ n ∈ ChatJoinRequestHandler._usernames self))
  ∧ (as_Update o = None → ChatJoinRequestHandler.check_update self o = false)
  ∧ (∀ u, o = OUpdate u → chat_join_request u = None →
          ChatJoinRequestHandler.check_update self o = false).
Proof.
  split_and!.
  - destruct o as [u | m | a]; [|by split; [|intros (? & ? & ? & _)]..].
    destruct (chat_join_request u) as [req|] eqn:Hreq.
    + rewrite (check_update_join_request self u req Hreq).
      split; [by eauto 10|]. intros (u' & req' & [= <-] & Hr & H).
      rewrite Hreq in Hr. by injection Hr as <-.
    + unfold ChatJoinRequestHandler.check_update. simpl. rewrite Hreq.
      split; [done|]. intros (u' & req' & [= <-] & Hr & _). congruence.
  - unfold ChatJoinRequestHandler.check_update. by intros ->.
  - intros u -> Hnone. unfold ChatJoinRequestHandler.check_update. simpl.
    by rewrite Hnone.
Qed.

Lemma ChatJoinRequestHandler_check_update_witness :
  ChatJoinRequestHandler.check_update
    (ChatJoinRequestHandler.__init__ no_callback (Some (Many [-100; -200])) None true)
    (OUpdate (join_request_update 1 (-100) 7 None)) = true
  ∧ ChatJoinRequestHandler.check_update
      (ChatJoinRequestHandler.__init__ no_callback (Some (Many [-100; -200])) None true)
      (OAtom (Py.AStr "hello")) = false
  ∧ ChatJoinRequestHandler.check_update
      (ChatJoinRequestHandler.__init__ no_callback (Some (Many [-100; -200])) None true)
      (OUpdate (text_update 2 "hello")) = false.
Proof.
  split_and!.
  - apply ChatJoinRequestHandler_check_update.
    eexists _, _. split; [reflexivity|]. split; [reflexivity|].
    right. left. simpl. set_solver.
  - apply ChatJoinRequestHandler_check_update. reflexivity.
  - eapply ChatJoinRequestHandler_check_update; reflexivity.
Defined.



(** ** ChatPermissions *)

Lemma ChatPermissions_eq_spec (a b : ChatPermissions.t) :
  ChatPermissions.eq a b = true
  ↔ ChatPermissions.can_send_messages a = ChatPermissions.can_send_messages b
    ∧ ChatPermissions.can_send_media_messages a = ChatPermissions.can_send_media_messages b
    ∧ ChatPermissions.can_send_polls a = ChatPermissions.can_send_polls b
    ∧ ChatPermissions.can_send_other_messages a = ChatPermissions.can_send_other_messages b
    ∧ ChatPermissions.can_add_web_page_previews a = ChatPermissions.can_add_web_page_previews b
    ∧ ChatPermissions.can_change_info a = ChatPermissions.can_change_info b
    ∧ ChatPermissions.can_invite_users a = ChatPermissions.can_invite_users b
    ∧ ChatPermissions.can_pin_messages a = ChatPermissions.can_pin_messages b
    ∧ ChatPermissions.can_manage_topics a = ChatPermissions.can_manage_topics b.
Proof.
  unfold ChatPermissions.eq, ChatPermissions._id_attrs.
  rewrite bool_decide_eq_true. split.
  - intros [=]. by repeat split.
  - intros (-> & -> & -> & -> & -> & -> & -> & -> & ->). done.
Qed.

(** C10: all_permissions has its nine permission attributes True and
    no_permissions has them False; the equality of the class looks at these
    nine attributes and at nothing else, and under it each of the two is
    equal to every ChatPermissions built with those nine values. *)
Theorem ChatPermissions_all_and_no_permissions
    (api_kwargs : option (gmap string Py.atom)) :
  (ChatPermissions.can_send_messages ChatPermissions.all_permissions = Some true
   ∧ ChatPermissions.can_send_media_messages ChatPermissions.all_permissions = Some true
   ∧ ChatPermissions.can_send_polls ChatPermissions.all_permissions = Some true
   ∧ ChatPermissions.can_send_other_messages ChatPermissions.all_permissions = Some true
   ∧ ChatPermissions.can_add_web_page_previews ChatPermissions.all_permissions = Some true
   ∧ ChatPermissions.can_change_info ChatPermissions.all_permissions = Some true
   ∧ ChatPermissions.can_invite_users ChatPermissions.all_permissions = Some true
   ∧ ChatPermissions.can_pin_messages ChatPermissions.all_permissions = Some true
   ∧ ChatPermissions.can_manage_topics ChatPermissions.all_permissions = Some true)
  ∧ (ChatPermissions.can_send_messages ChatPermissions.no_permissions = Some false
     ∧ ChatPermissions.can_send_media_messages ChatPermissions.no_permissions = Some false
     ∧ ChatPermissions.can_send_polls ChatPermissions.no_permissions = Some false
     ∧ ChatPermissions.can_send_other_messages ChatPermissions.no_permissions = Some false
     ∧ ChatPermissions.can_add_web_page_previews ChatPermissions.no_permissions = Some false
     ∧ ChatPermissions.can_change_info ChatPermissions.no_permissions = Some false
     ∧ ChatPermissions.can_invite_users ChatPermissions.no_permissions = Some false
     ∧ ChatPermissions.can_pin_messages ChatPermissions.no_permissions = Some false
     ∧ ChatPermissions.can_manage_topics ChatPermissions.no_permissions = Some false)
  ∧ ChatPermissions.eq ChatPermissions.all_permissions
      (ChatPermissions.__init__ (Some true) (Some true) (Some true) (Some true)
         (Some true) (Some true) (Some true) (Some true) (Some true) api_kwargs)
    = true
  ∧ ChatPermissions.eq ChatPermissions.no_permissions
      (ChatPermissions.__init__ (Some false) (Some false) (Some false) (Some false)
         (Some false) (Some false) (Some false) (Some false) (Some false) api_kwargs)
    = true
  ∧ ChatPermissions.eq ChatPermissions.all_permissions ChatPermissions.no_permissions
    = false
  ∧ (∀ a b : ChatPermissions.t,
       ChatPermissions.eq a b = true
       ↔ ChatPermissions.can_send_messages a = ChatPermissions.can_send_messages b
         ∧ ChatPermissions.can_send_media_messages a
           = ChatPermissions.can_send_media_messages b
         ∧ ChatPermissions.can_send_polls a = ChatPermissions.can_send_polls b
         ∧ ChatPermissions.can_send_other_messages a
           = ChatPermissions.can_send_other_messages b
         ∧ ChatPermissions.can_add_web_page_previews a
           = ChatPermissions.can_add_web_page_previews b
         ∧ ChatPermissions.can_change_info a = ChatPermissions.can_change_info b
         ∧ ChatPermissions.can_invite_users a = ChatPermissions.can_invite_users b
         ∧ ChatPermissions.can_pin_messages a = ChatPermissions.can_pin_messages b
         ∧ ChatPermissions.can_manage_topics a = ChatPermissions.can_manage_topics b).
Proof.
  split_and!; try reflexivity.
  apply ChatPermissions_eq_spec.
Qed.

Lemma ChatPermissions_all_and_no_permissions_witness :
  ChatPermissions.eq ChatPermissions.all_permissions
    (ChatPermissions.__init__ (Some true) (Some true) (Some true) (Some true)
       (Some true) (Some true) (Some true) (Some true) (Some true)
       (Some {[ "until_date" := Py.AInt 0 ]}))
  = true.
Proof.
  destruct (ChatPermissions_all_and_no_permissions None) as (_ & _ & _ & _ & _ & H).
  apply H. by repeat split.
Defined.
(** ** Filters *)

(** C6: on every update the AND of two filters is the merge of their
    results when both match, and false otherwise; the second filter is not
    consulted when the first does not match.  True and true give true, and
    two mappings give a mapping in which a key held by both has the value of
    the second filter. *)
Theorem Filters_And_evaluate (f g : Filters.Filter) (u : Update) :
  Filters.result (Filters.And f g) u
    = (if Filters.matched (Filters.result f u) && Filters.matched (Filters.result g u)
       then Filters.merge (Filters.result f u) (Filters.result g u)
       else Filters.MFalse)
  ∧ (Filters.matched (Filters.result f u) = false →
       Filters.consulted (Filters.And f g) u = Filters.consulted f u)
  ∧ (Filters.result f u = Filters.MTrue → Filters.result g u = Filters.MTrue →
       Filters.result (Filters.And f g) u = Filters.MTrue)
  ∧ (∀ d1 d2 : FilterDataDict,
       Filters.result f u = Filters.MData d1 → d1 ≠ ∅ →
       Filters.result g u = Filters.MData d2 → d2 ≠ ∅ →
       ∃ d : FilterDataDict,
         Filters.result (Filters.And f g) u = Filters.MData d
         ∧ ∀ key, d !! key = match d2 !! key with
                             | Some v => Some v
                             | None => d1 !! key
                             end).
Proof.
  unfold Filters.result, Filters.consulted. simpl.
  destruct (Filters.evaluate f u) as [r1 t1], (Filters.evaluate g u) as [r2 t2].
  simpl. split_and!.
  - by destruct (Filters.matched r1), (Filters.matched r2).
  - by intros ->.
  - by intros -> ->.
  - intros d1 d2 -> Hd1 -> Hd2.
    unfold Filters.matched. simpl.
    rewrite !bool_decide_eq_true_2 by done. simpl.
    eexists; split; [done|]. intros key. rewrite lookup_union.
    by destruct (d2 !! key), (d1 !! key).
Qed.

Lemma Filters_And_evaluate_witness :
  Filters.consulted (Filters.And never (data_filter "g" "k" 2)) (text_update 1 "hi")
    = ["never"]
  ∧ ∃ d : FilterDataDict,
      Filters.result (Filters.And (data_filter "f" "k" 1) (data_filter "g" "k" 2))
        (text_update 1 "hi") = Filters.MData d
      ∧ d !! "k" = Some [Py.AInt 2].
Proof.
  split.
  - destruct (Filters_And_evaluate never (data_filter "g" "k" 2) (text_update 1 "hi"))
      as (_ & H & _).
    apply H. reflexivity.
  - destruct (Filters_And_evaluate (data_filter "f" "k" 1) (data_filter "g" "k" 2)
                (text_update 1 "hi")) as (_ & _ & _ & H).
    destruct (H {[ "k" := [Py.AInt 1] ]} {[ "k" := [Py.AInt 2] ]}) as (d & Hd & Hk);
      [reflexivity | apply insert_non_empty | reflexivity | apply insert_non_empty |].
    exists d. split; [exact Hd|]. rewrite Hk. reflexivity.
Defined.

(** ** Dispatcher *)

Section Dispatch.

Import Dispatcher.

Lemma scan_group_from (g : Z) (hs : list Handler) (u : Update) :
  ∀ i : nat,
    scan_group g i hs u
    = match first_match hs u with
      | Some (j, h) =>
          (Offered g <$> seq i (S j))
            ++ [Invoked g (i + j) (name h) (matches h u)]
      | None => Offered g <$> seq i (length hs)
      end.
Proof.
  unfold first_match.
  induction hs as [|h hs IH]; intros i; [done|].
  cbn [scan_group list_find]. case_decide as Hm.
  - rewrite Hm. cbn. by rewrite Nat.add_0_r.
  - apply not_true_is_false in Hm. rewrite Hm, IH.
    destruct (list_find _ hs) as [[j h']|]; cbn; [|done].
    by rewrite Nat.add_succ_r.
Qed.

Lemma scan_group_events (g : Z) (hs : list Handler) (u : Update) :
  scan_group g 0 hs u = group_events g hs u.
Proof. apply scan_group_from. Qed.

Lemma StronglySorted_le_lt (l : list Z) :
  StronglySorted Z.le l → NoDup l → StronglySorted Z.lt l.
Proof.
  induction 1 as [|x l Hl IH Hx]; intros Hnd; [constructor|].
  apply NoDup_cons in Hnd as [Hnotin Hnd].
  constructor; [by apply IH|].
  apply Forall_forall. intros y Hy.
  rewrite Forall_forall in Hx. specialize (Hx y Hy).
  assert (x ≠ y) by (intros ->; done). lia.
Qed.

Lemma groups_ascending (d : table) : StronglySorted Z.lt (groups d).
Proof.
  unfold groups. apply StronglySorted_le_lt.
  - apply (StronglySorted_merge_sort Z.le).
  - rewrite merge_sort_Permutation. apply NoDup_elements.
Qed.

Lemma elem_of_groups (d : table) (g : Z) : g ∈ groups d ↔ is_Some (d !! g).
Proof.
  unfold groups. rewrite merge_sort_Permutation, elem_of_elements.
  apply elem_of_dom.
Qed.

Lemma process_update_events (d : table) (u : Update) :
  process_update d u = g ← groups d; group_events g (default [] (d !! g)) u.
Proof.
  unfold process_update. apply list_bind_ext; [|done].
  intros g. apply scan_group_events.
Qed.

Lemma elem_of_group_events_group (e : event) (g : Z) (hs : list Handler) (u : Update) :
  e ∈ group_events g hs u →
  match e with Offered g' _ | Invoked g' _ _ _ => g' = g end.
Proof.
  unfold group_events.
  destruct (first_match hs u) as [[j h]|].
  - rewrite elem_of_app, list_elem_of_fmap, list_elem_of_singleton.
    intros [(i & -> & _) | ->]; done.
  - rewrite list_elem_of_fmap. by intros (i & -> & _).
Qed.

(** An event of group [g] is in the trace of the pass exactly when it is
    among the events of [g]. *)
Lemma elem_of_process_update (d : table) (u : Update) (g : Z)
    (hs : list Handler) (e : event) :
  d !! g = Some hs →
  match e with Offered g' _ | Invoked g' _ _ _ => g' = g end →
  e ∈ process_update d u ↔ e ∈ group_events g hs u.
Proof.
  intros Hg He. rewrite process_update_events, list_elem_of_bind. split.
  - intros (g' & Hin & _).
    pose proof (elem_of_group_events_group _ _ _ _ Hin) as Hg'.
    assert (g' = g) as -> by (destruct e; congruence).
    by rewrite Hg in Hin.
  - intros Hin. exists g. rewrite Hg. split; [done|].
    apply elem_of_groups. by rewrite Hg.
Qed.

End Dispatch.

(** The scenario of section 8 of the specification: a start command goes
    to A and then C, any other text goes to B and then C. *)
Example scenario_start :
  Dispatcher.invoked (Dispatcher.process_update scenario (text_update 1 "/start"))
  = ["A"; "C"].
Proof. vm_compute. reflexivity. Qed.

Example scenario_other_text :
  Dispatcher.invoked (Dispatcher.process_update scenario (text_update 2 "hello"))
  = ["B"; "C"].
Proof. vm_compute. reflexivity. Qed.

Example scenario_start_trace :
  Dispatcher.process_update scenario (text_update 1 "/start")
  = [ Dispatcher.Offered 0 0; Dispatcher.Invoked 0 0 "A" (RBool true);
      Dispatcher.Offered 1 0; Dispatcher.Invoked 1 0 "C" (RBool true) ].
Proof. vm_compute. reflexivity. Qed.

(** C7: the groups are visited in ascending order of priority, each
    registered group once.  In a group the handlers are offered the update
    in registration order up to the first one whose result is truthy; this
    one is invoked, it is the only one invoked, and no later handler of the
    group is offered the update.  This holds in every group, whatever
    matched in the groups before it. *)
Theorem Dispatcher_process_update_order (d : Dispatcher.table) (u : Update) :
  StronglySorted Z.lt (Dispatcher.groups d)
  ∧ (∀ g : Z, g ∈ Dispatcher.groups d ↔ is_Some (d !! g))
  ∧ Dispatcher.process_update d u
    = Dispatcher.groups d
        ≫= (λ g, Dispatcher.group_events g (default [] (d !! g)) u)
  ∧ ∀ (g : Z) (hs : list Dispatcher.Handler),
      d !! g = Some hs →
      match Dispatcher.first_match hs u with
      | Some (j, h) =>
          hs !! j = Some h
          ∧ truthy (Dispatcher.matches h u) = true
          ∧ (∀ i h', (i < j)%nat → hs !! i = Some h' →
                     truthy (Dispatcher.matches h' u) = false)
          ∧ (∀ i, Dispatcher.Offered g i ∈ Dispatcher.process_update d u
                  ↔ (i ≤ j)%nat)
          ∧ (∀ i n r,
               Dispatcher.Invoked g i n r ∈ Dispatcher.process_update d u
               ↔ i = j ∧ n = Dispatcher.name h ∧ r = Dispatcher.matches h u)
      | None =>
          (∀ h, h ∈ hs → truthy (Dispatcher.matches h u) = false)
          ∧ (∀ i, Dispatcher.Offered g i ∈ Dispatcher.process_update d u
                  ↔ (i < length hs)%nat)
          ∧ (∀ i n r,
               Dispatcher.Invoked g i n r ∉ Dispatcher.process_update d u)
      end.
Proof.
  split_and!.
  - apply groups_ascending.
  - apply elem_of_groups.
  - apply process_update_events.
  - intros g hs Hg.
    destruct (Dispatcher.first_match hs u) as [[j h]|] eqn:Hfm.
    + pose proof Hfm as Hfind. unfold Dispatcher.first_match in Hfind.
      apply list_find_Some in Hfind as (Hj & Hm & Hbefore).
      split_and!; [done | done | | |].
      * intros i h' Hi Hh'. apply not_true_is_false. eauto.
      * intros i. rewrite (elem_of_process_update d u g hs) by done.
        unfold Dispatcher.group_events. rewrite Hfm.
        rewrite elem_of_app, list_elem_of_fmap, list_elem_of_singleton.
        setoid_rewrite elem_of_seq. split.
        -- intros [(i' & [= ->] & Hi') | ?]; [lia | done].
        -- intros Hi. left. exists i. split; [done | lia].
      * intros i n r. rewrite (elem_of_process_update d u g hs) by done.
        unfold Dispatcher.group_events. rewrite Hfm.
        rewrite elem_of_app, list_elem_of_fmap, list_elem_of_singleton. split.
        -- intros [(i' & ? & _) | [= -> -> ->]]; done.
        -- intros (-> & -> & ->). by right.
    + pose proof Hfm as Hfind. unfold Dispatcher.first_match in Hfind.
      apply list_find_None in Hfind. rewrite Forall_forall in Hfind.
      split_and!.
      * intros h Hh. apply not_true_is_false. by apply Hfind.
      * intros i. rewrite (elem_of_process_update d u g hs) by done.
        unfold Dispatcher.group_events. rewrite Hfm.
        rewrite list_elem_of_fmap. setoid_rewrite elem_of_seq. split.
        -- intros (i' & [= ->] & Hi'). lia.
        -- intros Hi. exists i. split; [done | lia].
      * intros i n r. rewrite (elem_of_process_update d u g hs) by done.
        unfold Dispatcher.group_events. rewrite Hfm.
        rewrite list_elem_of_fmap. by intros (i' & ? & _).
Qed.

Lemma Dispatcher_process_update_order_witness :
  (Dispatcher.Invoked 0 0 "A" (RBool true)
     ∈ Dispatcher.process_update scenario (text_update 1 "/start"))
  ∧ (Dispatcher.Offered 0 1
     ∉ Dispatcher.process_update scenario (text_update 1 "/start"))
  ∧ (Dispatcher.Invoked 1 0 "C" (RBool true)
     ∈ Dispatcher.process_update scenario (text_update 1 "/start")).
Proof.
  destruct (Dispatcher_process_update_order scenario (text_update 1 "/start"))
    as (_ & _ & _ & H).
  pose proof (H 0 [handler_A; handler_B] eq_refl) as (_ & _ & _ & Hoff0 & Hinv0).
  pose proof (H 1 [handler_C] eq_refl) as (_ & _ & _ & _ & Hinv1).
  split_and!.
  - apply Hinv0. by repeat split.
  - rewrite Hoff0. lia.
  - apply Hinv1. by repeat split.
Defined.

(** * Further properties of the code *)

(** ** Strings *)

Section Strings.

Import Stdlib.Strings.Ascii.
Import Html.

Lemma string_length_app (a b : string) :
  String.length (a +:+ b) = (String.length a + String.length b)%nat.
Proof. induction a as [|c a IH]; simpl; [done|]. by rewrite IH. Qed.

Lemma count_char_app (c : ascii) (a b : string) :
  count_char c (a +:+ b) = (count_char c a + count_char c b)%nat.
Proof. induction a as [|c' a IH]; simpl; [done|]. rewrite IH. lia. Qed.

Lemma replace_char_length (c : ascii) (r s : string) :
  (String.length (replace_char c r s) + count_char c s
   = String.length s + count_char c s * String.length r)%nat.
Proof.
  induction s as [|c' s IH]; simpl; [done|].
  destruct (Ascii.eqb c' c); simpl.
  - rewrite string_length_app. lia.
  - lia.
Qed.

Lemma count_char_replace_other (x c : ascii) (r s : string) :
  x ≠ c →
  count_char x (replace_char c r s)
  = (count_char x s + count_char c s * count_char x r)%nat.
Proof.
  intros Hne. induction s as [|c' s IH]; simpl; [done|].
  destruct (Ascii.eqb_spec c' c) as [->|Hc]; simpl.
  - rewrite count_char_app, IH.
    destruct (Ascii.eqb_spec c x) as [->|_]; [done|]. lia.
  - rewrite IH. lia.
Qed.

Lemma count_char_replace_same (c : ascii) (r s : string) :
  count_char c (replace_char c r s) = (count_char c s * count_char c r)%nat.
Proof.
  induction s as [|c' s IH]; simpl; [done|].
  destruct (Ascii.eqb_spec c' c) as [->|Hc]; simpl.
  - rewrite count_char_app, IH. lia.
  - destruct (Ascii.eqb_spec c' c); [done|]. rewrite IH. lia.
Qed.

Lemma replace_char_absent (c : ascii) (r s : string) :
  count_char c s = 0%nat → replace_char c r s = s.
Proof.
  induction s as [|c' s IH]; simpl; [done|].
  destruct (Ascii.eqb c' c); simpl; [done|].
  intros H. by rewrite IH.
Qed.

Lemma prefix_app (p s : string) :
  String.prefix p s = true ↔ ∃ rest, s = p +:+ rest.
Proof.
  revert s. induction p as [|c p IH]; intros s.
  - destruct s; simpl; split; eauto.
  - destruct s as [|c' s]; simpl.
    + split; [done|]. by intros (rest & ?).
    + destruct (ascii_dec c c') as [->|Hc].
      * rewrite IH. split; intros (rest & Hrest); exists rest.
        -- simpl. by rewrite Hrest.
        -- simpl in Hrest. by injection Hrest.
      * split; [done|]. intros (rest & [= ? _]). done.
Qed.

Lemma count_char_replace_skip (x c : ascii) (r s : string) :
  x ≠ c → count_char x r = 0%nat →
  count_char x (replace_char c r s) = count_char x s.
Proof. intros Hne Hr. rewrite count_char_replace_other by done. rewrite Hr. lia. Qed.

Lemma count_char_replace_gone (c : ascii) (r s : string) :
  count_char c r = 0%nat → count_char c (replace_char c r s) = 0%nat.
Proof. intros Hr. rewrite count_char_replace_same, Hr. lia. Qed.

(** The escaped text has no angle bracket and no quote left. *)
Lemma escape_no_markup (s : string) :
  count_char "<" (escape s) = 0%nat
  ∧ count_char ">" (escape s) = 0%nat
  ∧ count_char dquote (escape s) = 0%nat
  ∧ count_char "'" (escape s) = 0%nat.
Proof.
  unfold escape. split_and!.
  - rewrite !(count_char_replace_skip "<") by done.
    by apply count_char_replace_gone.
  - rewrite !(count_char_replace_skip ">") by done.
    by apply count_char_replace_gone.
  - rewrite !(count_char_replace_skip dquote) by done.
    by apply count_char_replace_gone.
  - by apply count_char_replace_gone.
Qed.

(** By how much [escape] makes a text longer. *)
Lemma escape_length (s : string) :
  String.length (escape s)
  = (String.length s + 4 * count_char "&" s + 3 * count_char "<" s
     + 3 * count_char ">" s + 5 * count_char dquote s + 5 * count_char "'" s)%nat.
Proof.
  unfold escape.
  set (s1 := replace_char "&" "&amp;" s).
  set (s2 := replace_char "<" "&lt;" s1).
  set (s3 := replace_char ">" "&gt;" s2).
  set (s4 := replace_char dquote "&quot;" s3).
  pose proof (replace_char_length "&" "&amp;" s) as H1.
  pose proof (replace_char_length "<" "&lt;" s1) as H2.
  pose proof (replace_char_length ">" "&gt;" s2) as H3.
  pose proof (replace_char_length dquote "&quot;" s3) as H4.
  pose proof (replace_char_length "'" "&#x27;" s4) as H5.
  assert (count_char "<" s1 = count_char "<" s) as E2
    by (by apply count_char_replace_skip).
  assert (count_char ">" s2 = count_char ">" s) as E3
    by (unfold s2, s1; by rewrite !(count_char_replace_skip ">")).
  assert (count_char dquote s3 = count_char dquote s) as E4
    by (unfold s3, s2, s1; by rewrite !(count_char_replace_skip dquote)).
  assert (count_char "'" s4 = count_char "'" s) as E5
    by (unfold s4, s3, s2, s1; by rewrite !(count_char_replace_skip "'")).
  fold s1 s2 s3 s4 in H1, H2, H3, H4, H5.
  rewrite E2 in H2. rewrite E3 in H3. rewrite E4 in H4. rewrite E5 in H5.
  simpl String.length in H1, H2, H3, H4, H5. lia.
Qed.

Lemma escape_length_ge (s : string) :
  (String.length s ≤ String.length (escape s))%nat.
Proof. rewrite escape_length. lia. Qed.

End Strings.

(** ** The error handler of the example *)

Section ErrorHandlerExample.

Import Stdlib.Strings.Ascii.

(** X1: whatever the update, the chat data, the user data and the traceback
    contain, the message goes to the developer chat in HTML mode and its text
    holds exactly eight opening and eight closing angle brackets, those of
    the four pre elements of the template: the content cannot add markup. *)
Theorem error_handler_markup (r : ErrorHandler.rendered) :
  ErrorHandler.chat_id (ErrorHandler.sent (ErrorHandler.error_handler r))
    = ErrorHandler.DEVELOPER_CHAT_ID
  ∧ ErrorHandler.parse_mode (ErrorHandler.sent (ErrorHandler.error_handler r))
    = ErrorHandler.HTML
  ∧ Html.count_char "<"%char
      (ErrorHandler.text (ErrorHandler.sent (ErrorHandler.error_handler r))) = 8%nat
  ∧ Html.count_char ">"%char
      (ErrorHandler.text (ErrorHandler.sent (ErrorHandler.error_handler r))) = 8%nat.
Proof.
  split; [done|]. split; [done|].
  cbn [ErrorHandler.error_handler ErrorHandler.sent ErrorHandler.text].
  unfold ErrorHandler.message, ErrorHandler.nl. cbv zeta.
  rewrite !count_char_app.
  destruct (escape_no_markup (ErrorHandler.update_json r)) as (-> & -> & _).
  destruct (escape_no_markup (ErrorHandler.chat_data r)) as (-> & -> & _).
  destruct (escape_no_markup (ErrorHandler.user_data r)) as (-> & -> & _).
  destruct (escape_no_markup (String.concat "" (ErrorHandler.tb_list r)))
    as (-> & -> & _).
  split; reflexivity.
Qed.

(** X2: the text is never cut: it is at least as long as the 148 characters
    of the template plus the four pieces of content, so content of more than
    4096 characters gives a message over the 4096 characters the comment in
    the handler speaks of. *)
Theorem error_handler_not_truncated (r : ErrorHandler.rendered) :
  (148 + String.length (ErrorHandler.update_json r)
   + String.length (ErrorHandler.chat_data r)
   + String.length (ErrorHandler.user_data r)
   + String.length (String.concat "" (ErrorHandler.tb_list r))
   ≤ String.length
       (ErrorHandler.text (ErrorHandler.sent (ErrorHandler.error_handler r))))%nat.
Proof.
  cbn [ErrorHandler.error_handler ErrorHandler.sent ErrorHandler.text].
  unfold ErrorHandler.message, ErrorHandler.nl. cbv zeta.
  rewrite !string_length_app.
  pose proof (escape_length_ge (ErrorHandler.update_json r)).
  pose proof (escape_length_ge (ErrorHandler.chat_data r)).
  pose proof (escape_length_ge (ErrorHandler.user_data r)).
  pose proof (escape_length_ge (String.concat "" (ErrorHandler.tb_list r))).
  simpl String.length. lia.
Qed.

End ErrorHandlerExample.

(** ** The requirement check of the official-API test *)

Section OfficialTest.

Import Stdlib.Strings.Ascii.
Import TestOfficial.

(** The part before the first separator is [p] exactly for [p] itself and
    for [p] followed by a separator and anything. *)
Lemma split_first_eq (sep : ascii) (p : string) :
  Html.count_char sep p = 0%nat →
  ∀ s, split_first sep s = p ↔ s = p ∨ ∃ rest, s = p +:+ String sep rest.
Proof.
  intros Hp s. revert p Hp. induction s as [|c s IH]; intros p Hp.
  - simpl. split.
    + intros <-. by left.
    + intros [<-|(rest & Hrest)]; [done|]. by destruct p.
  - simpl. destruct (Ascii.eqb_spec c sep) as [->|Hc].
    + split.
      * intros <-. right. by exists s.
      * intros [<-|(rest & Hrest)].
        -- simpl in Hp. rewrite Ascii.eqb_refl in Hp. done.
        -- destruct p as [|c' p]; [done|]. simpl in Hrest, Hp.
           injection Hrest as <- _. rewrite Ascii.eqb_refl in Hp. done.
    + destruct p as [|c' p].
      * split; [done|]. intros [?|(rest & [= ? _])]; done.
      * simpl in Hp. destruct (Ascii.eqb c' sep); [done|]. simpl in Hp.
        specialize (IH p Hp). split.
        -- intros [= -> Hs]. apply IH in Hs as [->|(rest & ->)]; eauto.
        -- intros [[= -> ->]|(rest & [= -> ->])]; f_equal; apply IH; eauto.
Qed.

Lemma required_by_tg_false_iff (field : string) :
  is_parameter_required_by_tg field = false
  ↔ field = "Optional" ∨ startswith field "Optional." = true.
Proof.
  unfold is_parameter_required_by_tg, startswith.
  rewrite prefix_app.
  case_bool_decide as Hreq.
  - split; [done|].
    apply elem_of_cons in Hreq as [->|Hreq];
      [|apply list_elem_of_singleton in Hreq as ->].
    + intros [?|(rest & ?)]; done.
    + intros [?|(rest & ?)]; done.
  - assert (Html.count_char "." "Optional" = 0%nat) as Hdot by done.
    case_bool_decide as Hopt.
    + split; [|done]. intros _.
      apply (split_first_eq _ _ Hdot) in Hopt as [->|(rest & ->)]; [by left|].
      right. by exists rest.
    + split; [done|]. intros H. exfalso. apply Hopt.
      apply (split_first_eq _ _ Hdot).
      destruct H as [->|(rest & ->)]; [by left|]. right. by exists rest.
Qed.

(** X3: a field of the documentation stands for an optional parameter
    exactly when it is the word Optional or starts with "Optional."; every
    other field, also one that merely starts with the letters of Optional,
    stands for a required parameter. *)
Theorem is_parameter_required_by_tg_false (field : string) :
  is_parameter_required_by_tg field = false
  ↔ field = "Optional" ∨ startswith field "Optional." = true.
Proof. apply required_by_tg_false_iff. Qed.

(** X4: for a row of the documentation with at least three cells, a
    parameter listed for the method or object in the table of ignored
    requirements always passes; any other parameter passes exactly when it
    has a default value if and only if its field says Optional.  A row with
    fewer than three cells raises IndexError, also for a listed parameter. *)
Theorem check_required_param_result (param_desc : list string)
    (param : InspectParameter) (method_or_obj_name : string) :
  match param_desc !! 2%nat with
  | None =>
      (length param_desc < 3)%nat
      ∧ check_required_param param_desc param method_or_obj_name = IndexError
  | Some field =>
      ∃ b : bool,
        check_required_param param_desc param method_or_obj_name = Value b
        ∧ (b = true
           ↔ name param ∈ ignored_for method_or_obj_name
             ∨ (default param ≠ None
                ↔ field = "Optional" ∨ startswith field "Optional." = true))
  end.
Proof.
  unfold check_required_param.
  destruct (param_desc !! 2%nat) as [field|] eqn:Hfield.
  - case_bool_decide as Hign.
    + exists true. split; [done|]. split; [by left|done].
    + eexists. split; [done|].
      rewrite <- required_by_tg_false_iff.
      destruct (is_parameter_required_by_tg field), (default param) as [v|];
        case_bool_decide; simpl; intuition congruence.
  - split; [|done]. apply lookup_ge_None in Hfield. lia.
Qed.

End OfficialTest.

(** ** More on ChatJoinRequestHandler *)

Section ChatJoinRequestMore.

Import Stdlib.Strings.Ascii.
Import ChatJoinRequestHandler.

Lemma startswith_at (usr : string) :
  startswith usr "@" = true ↔ ∃ rest, usr = "@" +:+ rest.
Proof. unfold startswith. apply prefix_app. Qed.

(** Which configured names are stored as [n]. *)
Lemma strip_at_eq (usr n : string) :
  strip_at usr = n ↔ (usr = n ∧ startswith n "@" = false) ∨ usr = "@" +:+ n.
Proof.
  unfold strip_at. destruct (startswith usr "@") eqn:Hat.
  - apply startswith_at in Hat as (rest & ->).
    change ("@" +:+ rest) with (String "@"%char rest).
    cbn [slice_from_1]. split.
    + intros ->. by right.
    + intros [[<- Hn]|[= ->]]; [|done].
      assert (startswith (String "@"%char rest) "@" = true) as Ht
        by (apply startswith_at; by exists rest).
      congruence.
  - split.
    + intros <-. by left.
    + intros [[-> _] | ->]; [done|].
      assert (startswith ("@" +:+ n) "@" = true) as Ht
        by (apply startswith_at; by exists n).
      congruence.
Qed.

Lemma elem_of_parse_username_Many (l : list string) (n : string) :
  n ∈ _parse_username (Some (Many l))
  ↔ (n ∈ l ∧ startswith n "@" = false) ∨ ("@" +:+ n) ∈ l.
Proof.
  simpl. rewrite elem_of_list_to_set, list_elem_of_fmap. split.
  - intros (usr & Hn & Hin). symmetry in Hn.
    apply strip_at_eq in Hn as [[-> ?] | ->]; eauto.
  - intros [[Hin Hn]|Hin]; eexists; (split; [|exact Hin]);
      symmetry; apply strip_at_eq; eauto.
Qed.

Lemma check_update_no_join_request (self : t) (o : object) :
  (∀ u req, o = OUpdate u → chat_join_request u ≠ Some req) →
  check_update self o = false.
Proof.
  intros Hno. unfold check_update.
  destruct o as [u| |]; simpl; [|done..].
  destruct (chat_join_request u) as [req|] eqn:Hreq; [|done].
  by destruct (Hno u req).
Qed.

End ChatJoinRequestMore.

(** X5: with a collection of usernames, a name [n] is among the usernames
    of the handler exactly when the collection holds [n] itself and [n] does
    not start with '@', or holds "@"+[n]. *)
Theorem ChatJoinRequestHandler_parse_username_collection
    (l : list string) (n : string) :
  n ∈ ChatJoinRequestHandler._parse_username (Some (Many l))
  ↔ (n ∈ l ∧ startswith n "@" = false) ∨ ("@" +:+ n) ∈ l.
Proof. apply elem_of_parse_username_Many. Qed.

(** X6: order and repetition in the configured collections do not matter:
    two handlers whose collections of chat ids hold the same ids and whose
    collections of usernames hold the same names answer alike on every
    object. *)
Theorem ChatJoinRequestHandler_collections_as_sets
    (callback callback' : HandlerCallback) (block block' : bool)
    (ids ids' : list Z) (names names' : list string) (o : object) :
  (∀ x, x ∈ ids ↔ x ∈ ids') →
  (∀ y, y ∈ names ↔ y ∈ names') →
  ChatJoinRequestHandler.check_update
    (ChatJoinRequestHandler.__init__ callback (Some (Many ids)) (Some (Many names)) block) o
  = ChatJoinRequestHandler.check_update
      (ChatJoinRequestHandler.__init__ callback' (Some (Many ids')) (Some (Many names')) block') o.
Proof.
  intros Hids Hnames.
  assert (ChatJoinRequestHandler._parse_chat_id (Some (Many ids))
          = ChatJoinRequestHandler._parse_chat_id (Some (Many ids'))) as E1.
  { apply set_eq. intros x. simpl. by rewrite !elem_of_list_to_set. }
  assert (ChatJoinRequestHandler._parse_username (Some (Many names))
          = ChatJoinRequestHandler._parse_username (Some (Many names'))) as E2.
  { apply set_eq. intros x. rewrite !elem_of_parse_username_Many.
    by rewrite !Hnames. }
  unfold ChatJoinRequestHandler.__init__, ChatJoinRequestHandler.check_update.
  cbn [ChatJoinRequestHandler._chat_ids ChatJoinRequestHandler._usernames].
  by rewrite E1, E2.
Qed.

Lemma ChatJoinRequestHandler_collections_as_sets_witness :
  ChatJoinRequestHandler.check_update
    (ChatJoinRequestHandler.__init__ no_callback
       (Some (Many [-100; -200; -100])) (Some (Many ["@ann"; "bob"])) true)
    (OUpdate (join_request_update 1 (-300) 7 (Some "bob")))
  = ChatJoinRequestHandler.check_update
      (ChatJoinRequestHandler.__init__ no_callback
         (Some (Many [-200; -100])) (Some (Many ["bob"; "@ann"; "bob"])) false)
      (OUpdate (join_request_update 1 (-300) 7 (Some "bob"))).
Proof.
  apply ChatJoinRequestHandler_collections_as_sets.
  - intros x. rewrite !elem_of_cons, !elem_of_nil. tauto.
  - intros y. rewrite !elem_of_cons, !elem_of_nil. tauto.
Defined.

(** X7: an empty collection restricts nothing.  A handler built with no
    chat ids or an empty collection of them, and with no usernames or an
    empty collection of them, accepts every Update that has a
    chat_join_request and nothing else. *)
Theorem ChatJoinRequestHandler_empty_collections
    (callback : HandlerCallback) (chat_id : option (SCT Z))
    (username : option (SCT string)) (block : bool) (o : object) :
  chat_id = None ∨ chat_id = Some (Many []) →
  username = None ∨ username = Some (Many []) →
  ChatJoinRequestHandler.check_update
    (ChatJoinRequestHandler.__init__ callback chat_id username block) o
  = match as_Update o with
    | Some u => bool_decide (is_Some (chat_join_request u))
    | None => false
    end.
Proof.
  intros Hc Hn.
  assert (ChatJoinRequestHandler._parse_chat_id chat_id = ∅) as E1
    by (by destruct Hc as [-> | ->]).
  assert (ChatJoinRequestHandler._parse_username username = ∅) as E2
    by (by destruct Hn as [-> | ->]).
  unfold ChatJoinRequestHandler.__init__, ChatJoinRequestHandler.check_update.
  cbn [ChatJoinRequestHandler._chat_ids ChatJoinRequestHandler._usernames].
  rewrite E1, E2.
  destruct (as_Update o) as [u|]; [|done].
  by destruct (chat_join_request u).
Qed.

Lemma ChatJoinRequestHandler_empty_collections_witness :
  ChatJoinRequestHandler.check_update
    (ChatJoinRequestHandler.__init__ no_callback (Some (Many [])) None true)
    (OUpdate (join_request_update 1 (-300) 7 None))
  = true.
Proof.
  rewrite (ChatJoinRequestHandler_empty_collections no_callback
             (Some (Many [])) None true); [reflexivity | by right | by left].
Defined.

(** X8: when both chat ids and usernames are configured, a request passes
    if either matches: the handler answers as the disjunction of the handler
    with the chat ids alone and the handler with the usernames alone. *)
Theorem ChatJoinRequestHandler_either
    (callback : HandlerCallback) (chat_id : option (SCT Z))
    (username : option (SCT string)) (block : bool) (o : object) :
  ChatJoinRequestHandler._parse_chat_id chat_id ≠ ∅ →
  ChatJoinRequestHandler._parse_username username ≠ ∅ →
  ChatJoinRequestHandler.check_update
    (ChatJoinRequestHandler.__init__ callback chat_id username block) o
  = ChatJoinRequestHandler.check_update
      (ChatJoinRequestHandler.__init__ callback chat_id None block) o
    || ChatJoinRequestHandler.check_update
         (ChatJoinRequestHandler.__init__ callback None username block) o.
Proof.
  intros Hc Hn.
  unfold ChatJoinRequestHandler.__init__, ChatJoinRequestHandler.check_update.
  cbn [ChatJoinRequestHandler._chat_ids ChatJoinRequestHandler._usernames
       ChatJoinRequestHandler._parse_chat_id ChatJoinRequestHandler._parse_username].
  destruct (as_Update o) as [u|]; [|done].
  destruct (chat_join_request u) as [req|]; [|done].
  rewrite (bool_decide_eq_false_2 _ Hc), (bool_decide_eq_false_2 _ Hn).
  rewrite (bool_decide_eq_false_2 (Telegram.chat_id (chat req) ∈ (∅ : gset Z)))
    by set_solver.
  assert (ChatJoinRequestHandler.username_in (Telegram.username (from_user req)) ∅
          = false) as ->.
  { destruct (Telegram.username (from_user req)) as [n|]; [|done].
    simpl. apply bool_decide_eq_false_2. set_solver. }
  cbn [andb].
  destruct (bool_decide _), (ChatJoinRequestHandler.username_in _ _); done.
Qed.

Lemma ChatJoinRequestHandler_either_witness :
  ChatJoinRequestHandler.check_update
    (ChatJoinRequestHandler.__init__ no_callback
       (Some (One (-100))) (Some (One "@ann")) true)
    (OUpdate (join_request_update 1 (-300) 7 (Some "ann")))
  = false || true.
Proof.
  rewrite (ChatJoinRequestHandler_either no_callback
             (Some (One (-100))) (Some (One "@ann")) true).
  - reflexivity.
  - simpl. apply non_empty_singleton_L.
  - simpl. apply non_empty_singleton_L.
Defined.

(** X9: once a handler has a restriction, widening its chat ids and its
    usernames never turns an accepted object into a rejected one.  (Without
    a restriction the handler accepts every join request, so the first
    restriction narrows it.) *)
Theorem ChatJoinRequestHandler_widening
    (h h' : ChatJoinRequestHandler.t) (o : object) :
  ChatJoinRequestHandler._chat_ids h ≠ ∅
  ∨ ChatJoinRequestHandler._usernames h ≠ ∅ →
  ChatJoinRequestHandler._chat_ids h ⊆ ChatJoinRequestHandler._chat_ids h' →
  ChatJoinRequestHandler._usernames h ⊆ ChatJoinRequestHandler._usernames h' →
  ChatJoinRequestHandler.check_update h o = true →
  ChatJoinRequestHandler.check_update h' o = true.
Proof.
  intros Hres Hids Hnames Hacc.
  destruct o as [u | m | a]; [|done..].
  destruct (chat_join_request u) as [req|] eqn:Hreq.
  - apply (check_update_join_request h u req Hreq) in Hacc.
    apply (check_update_join_request h' u req Hreq).
    destruct Hacc as [[E1 E2] | [Hin | (n & Hn & Hin)]].
    + destruct Hres; done.
    + right. left. by apply Hids.
    + right. right. exists n. split; [done|]. by apply Hnames.
  - rewrite check_update_no_join_request in Hacc; [done|].
    intros u' req [= <-]. congruence.
Qed.

Lemma ChatJoinRequestHandler_widening_witness :
  ChatJoinRequestHandler.check_update
    (ChatJoinRequestHandler.__init__ no_callback
       (Some (Many [-100; -200])) (Some (One "ann")) true)
    (OUpdate (join_request_update 1 (-100) 7 None))
  = true.
Proof.
  apply (ChatJoinRequestHandler_widening
           (ChatJoinRequestHandler.__init__ no_callback (Some (One (-100))) None true)).
  - left. simpl. apply non_empty_singleton_L.
  - simpl. set_solver.
  - simpl. set_solver.
  - reflexivity.
Defined.

(** ** More on MessageHandler *)

(** X10: the handler matches exactly when its filter does: the result of
    check_update on an Update is truthy if and only if the result of the
    filter is, and on an object that is not an Update it is falsy. *)
Theorem MessageHandler_check_update_truthy (self : MessageHandler.t) (o : object) :
  truthy (MessageHandler.check_update self o)
  = match as_Update o with
    | Some u => truthy (MessageHandler.filters self u)
    | None => false
    end.
Proof.
  unfold MessageHandler.check_update, py_or.
  destruct (as_Update o) as [u|]; [|done].
  by destruct (truthy (MessageHandler.filters self u)) eqn:Ht.
Qed.

(** X11: when the result of check_update is handed to
    collect_additional_context, an attribute of the context changes only if
    the object is an Update on which the filter returned a mapping holding
    that attribute's name, and the attribute then has the mapping's value.
    For an object that is not an Update and for a filter result that is
    None, a boolean or an empty mapping, the context stays as it is. *)
Theorem MessageHandler_context_frame (self : MessageHandler.t)
    (context : CallbackContext) (update : Update) (o : object) :
  let context' :=
    MessageHandler.collect_additional_context self context update
      (MessageHandler.check_update self o) in
  (∀ k, context' !! k ≠ context !! k →
        ∃ u d v, as_Update o = Some u
                 ∧ MessageHandler.filters self u = RDict d
                 ∧ d !! k = Some v
                 ∧ context' !! k = Some v)
  ∧ ((∀ u d, as_Update o = Some u → MessageHandler.filters self u = RDict d → d = ∅) →
     context' = context).
Proof.
  unfold MessageHandler.collect_additional_context, MessageHandler.check_update, py_or.
  destruct (as_Update o) as [u|]; simpl; [|by split].
  destruct (MessageHandler.filters self u) as [| b | d] eqn:Hf; simpl;
    [by split | by destruct b; split |].
  case_bool_decide as Hd; simpl.
  - split.
    + intros k Hk. unfold context_update in *. rewrite lookup_union in *.
      destruct (d !! k) as [v|] eqn:Hdk.
      * exists u, d, v. split_and!; try done. by destruct (context !! k).
      * destruct (context !! k); done.
    + intros Hempty. by destruct Hd; eapply Hempty.
  - by split.
Qed.

Lemma MessageHandler_context_frame_witness :
  MessageHandler.collect_additional_context data_handler ∅ (text_update 1 "hi")
    (MessageHandler.check_update data_handler (OAtom (Py.AInt 3)))
  = ∅.
Proof.
  destruct (MessageHandler_context_frame data_handler ∅ (text_update 1 "hi")
              (OAtom (Py.AInt 3))) as [_ H].
  apply H. intros u d Hu. discriminate Hu.
Defined.

(** ** More on Promise *)

Section PromiseMore.

Import Promise.

Lemma run_logged (self : t) :
  logged (run self)
  = match pooled_function self (args self) (kwargs self) with
    | Returns _ => []
    | Raises e =>
        if Py.isinstance_Exception e
        then ["An uncaught error was raised while running the promise"]
        else []
    end.
Proof.
  unfold run. destruct (pooled_function self _ _) as [v|e]; [done|].
  by destruct (Py.isinstance_Exception e).
Qed.

Lemma run_propagated (self : t) :
  propagated (run self)
  = match pooled_function self (args self) (kwargs self) with
    | Returns _ => None
    | Raises e => if Py.isinstance_Exception e then None else Some e
    end.
Proof.
  unfold run. destruct (pooled_function self _ _) as [v|e]; [done|].
  by destruct (Py.isinstance_Exception e).
Qed.

Lemma run_times_logged (n : nat) :
  ∀ self : t,
    logged (run_times n self)
    = match pooled_function self (args self) (kwargs self) with
      | Returns _ => []
      | Raises e =>
          if Py.isinstance_Exception e
          then replicate n "An uncaught error was raised while running the promise"
          else []
      end.
Proof.
  induction n as [|n IH]; intros self.
  - simpl. destruct (pooled_function self _ _) as [v|e]; [done|].
    by destruct (Py.isinstance_Exception e).
  - cbn [run_times]. cbv zeta.
    pose proof (run_propagated self) as Hp.
    pose proof (run_logged self) as Hl.
    destruct (run_keeps_call self) as (Hf & Ha & Hk).
    specialize (IH (after (run self))). rewrite Hf, Ha, Hk in IH.
    destruct (pooled_function self (args self) (kwargs self)) as [v|e].
    + rewrite Hp. cbn [logged]. by rewrite Hl, IH.
    + destruct (Py.isinstance_Exception e).
      * rewrite Hp. cbn [logged]. by rewrite Hl, IH.
      * by rewrite Hp, Hl.
Qed.

End PromiseMore.

(** X12: [run] writes the exception slot and never clears it.  If the slot
    already holds an exception when [run] is called and pooled_function
    returns, the value is stored, yet [result] goes on raising the old
    exception: the value of the later call is never delivered. *)
Theorem Promise_run_keeps_old_exception (self : Promise.t) (e : Py.exc)
    (v : Py.atom) (timeout : option Z) :
  Promise._exception self = Some e →
  Promise.pooled_function self (Promise.args self) (Promise.kwargs self)
    = Promise.Returns v →
  Promise.propagated (Promise.run self) = None
  ∧ Promise._result (Promise.after (Promise.run self)) = v
  ∧ Promise.exception (Promise.after (Promise.run self)) = Some e
  ∧ Promise.result (Promise.after (Promise.run self)) timeout
    = Promise.ResultRaises e.
Proof.
  intros He Hcall.
  destruct (run_Returns self v Hcall) as (Hp & Hr & Hx).
  split_and!; [done | done | by rewrite <- He | ].
  unfold Promise.result. rewrite run_done, Hx, He. done.
Qed.

Lemma Promise_run_keeps_old_exception_witness :
  Promise.result
    (Promise.after
       (Promise.run
          (Promise.set_exception (Promise.__init__ return_42 [] ∅) ValueError)))
    None
  = Promise.ResultRaises ValueError.
Proof.
  apply (Promise_run_keeps_old_exception
           (Promise.set_exception (Promise.__init__ return_42 [] ∅) ValueError)
           ValueError (Py.AInt 42) None); reflexivity.
Defined.

(** X13: every call of [run] in which pooled_function raises an instance of
    Exception sends one line to the logger, and no other call logs anything:
    after [n] calls on a new promise the log holds [n] lines when
    pooled_function raises such an exception, and none when it returns or
    when its exception leaves [run]. *)
Theorem Promise_run_logs_each_failure (f : Promise.callable) (a : list Py.atom)
    (k : gmap string Py.atom) (n : nat) :
  Promise.logged (Promise.run_times n (Promise.__init__ f a k))
  = match f a k with
    | Promise.Returns _ => []
    | Promise.Raises e =>
        if Py.isinstance_Exception e
        then replicate n "An uncaught error was raised while running the promise"
        else []
    end.
Proof. apply (run_times_logged n (Promise.__init__ f a k)). Qed.

(** ** The result of a promise after run *)

Section PromiseResult.

Import Promise.

(** A call of [run] that lets an exception out ends the sequence of calls. *)
Lemma run_times_stops (n : nat) (self : t) (e : Py.exc) :
  propagated (run self) = Some e → run_times (S n) self = run self.
Proof. intros Hp. cbn [run_times]. cbv zeta. by rewrite Hp. Qed.

Lemma run_times_propagated (n : nat) :
  ∀ self : t,
    propagated (run_times (S n) self)
    = match pooled_function self (args self) (kwargs self) with
      | Returns _ => None
      | Raises e => if Py.isinstance_Exception e then None else Some e
      end.
Proof.
  induction n as [|n IH]; intros self.
  - pose proof (run_propagated self) as Hp.
    cbn [run_times]. cbv zeta.
    destruct (propagated (run self)) as [e'|] eqn:Hrun; [by rewrite Hrun|].
    by cbn [propagated].
  - pose proof (run_propagated self) as Hp.
    destruct (propagated (run self)) as [e'|] eqn:Hrun.
    + by rewrite (run_times_stops _ _ e' Hrun), Hrun.
    + change (run_times (S (S n)) self) with
        (let e := run self in
         match propagated e with
         | Some _ => e
         | None =>
             let e' := run_times (S n) (after e) in
             {| after := after e'; logged := logged e ++ logged e';
                propagated := propagated e' |}
         end).
      cbv zeta. rewrite Hrun. cbn [propagated]. rewrite IH.
      destruct (run_keeps_call self) as (-> & -> & ->).
      destruct (pooled_function self (args self) (kwargs self)) as [v|e]; [done|].
      by destruct (Py.isinstance_Exception e).
Qed.

End PromiseResult.

(** C3, as the code has it: when pooled_function raises an exception that is
    not an instance of Exception, [run] sets the done event and leaves the
    exception slot empty, so [result] raises nothing although
    pooled_function raised.  Here pooled_function is interrupted from the
    keyboard and [result] returns None. *)
Lemma Promise_result_interrupt_counterexample :
  ¬ (∀ (f : Promise.callable) (a : list Py.atom) (k : gmap string Py.atom)
       (timeout : option Z) (e : Py.exc),
       Promise.done (Promise.after (Promise.run (Promise.__init__ f a k))) = true →
       (Promise.result (Promise.after (Promise.run (Promise.__init__ f a k))) timeout
        = Promise.ResultRaises e
        ↔ f a k = Promise.Raises e)).
Proof.
  intros H.
  destruct (H raise_KeyboardInterrupt [] ∅ None interrupt eq_refl) as [_ Hraise].
  specialize (Hraise eq_refl). vm_compute in Hraise. discriminate Hraise.
Qed.

(** C3 (amended): for every promise on which [run] has been called, once or
    several times, the done event is set and [result] does not wait.  It
    raises if and only if pooled_function raised an instance of Exception, and
    it raises exactly that exception; when pooled_function returned, it
    returns the value of pooled_function; when pooled_function raised an
    exception that is not an instance of Exception, that exception left
    [run] and [result] returns None. *)
Theorem Promise_result_after_run (f : Promise.callable) (a : list Py.atom)
    (k : gmap string Py.atom) (n : nat) (timeout : option Z) :
  Promise.done (Promise.after (Promise.run_times (S n) (Promise.__init__ f a k)))
    = true
  ∧ (∀ e : Py.exc,
       Promise.result
         (Promise.after (Promise.run_times (S n) (Promise.__init__ f a k))) timeout
         = Promise.ResultRaises e
       ↔ f a k = Promise.Raises e ∧ Py.isinstance_Exception e = true)
  ∧ (∀ v : Py.atom,
       f a k = Promise.Returns v →
       Promise.result
         (Promise.after (Promise.run_times (S n) (Promise.__init__ f a k))) timeout
         = Promise.ResultReturns v)
  ∧ (∀ e : Py.exc,
       f a k = Promise.Raises e → Py.isinstance_Exception e = false →
       Promise.propagated (Promise.run_times (S n) (Promise.__init__ f a k))
         = Some e
       ∧ Promise.result
           (Promise.after (Promise.run_times (S n) (Promise.__init__ f a k))) timeout
         = Promise.ResultReturns Py.ANone).
Proof.
  pose proof (run_times_propagated n (Promise.__init__ f a k)) as Hprop.
  cbn [Promise.__init__ Promise.pooled_function Promise.args Promise.kwargs] in Hprop.
  destruct (f a k) as [v|e0] eqn:Hcall.
  - destruct (run_times_settled f a k n (Promise.__init__ f a k))
      as [Hdone Hst]; [done.. | |].
    { by rewrite Hprop. }
    rewrite Hcall in Hst. destruct Hst as [Hres Hexc].
    set (p := Promise.after (Promise.run_times (S n) _)) in *. clearbody p.
    unfold Promise.result. rewrite Hdone, Hexc, Hres. cbn [negb andb].
    split_and!; [done | | by intros ? [= ->] | done].
    intros e. split; [done | by intros [? _]].
  - destruct (Py.isinstance_Exception e0) eqn:He0.
    + destruct (run_times_settled f a k n (Promise.__init__ f a k))
        as [Hdone Hst]; [done.. | |].
      { by rewrite Hprop. }
      rewrite Hcall in Hst.
      set (p := Promise.after (Promise.run_times (S n) _)) in *. clearbody p.
      unfold Promise.result. rewrite Hdone, Hst. cbn [negb andb].
      split_and!; [done | | done | ].
      * intros e. split; [by intros [= <-] | by intros [[= ->] _]].
      * intros e [= <-]. congruence.
    + assert (Promise.propagated (Promise.run (Promise.__init__ f a k)) = Some e0)
        as Hrun.
      { rewrite run_propagated.
        cbn [Promise.__init__ Promise.pooled_function Promise.args Promise.kwargs].
        by rewrite Hcall, He0. }
      rewrite (run_times_stops n _ e0 Hrun).
      unfold Promise.run.
      cbn [Promise.__init__ Promise.pooled_function Promise.args Promise.kwargs].
      rewrite Hcall, He0.
      unfold Promise.result. cbn.
      split_and!; [done | | done | ].
      * intros e. split; [done|]. intros [[= <-] He]. congruence.
      * by intros e [= <-] _.
Qed.

Lemma Promise_result_after_run_witness :
  Promise.result
    (Promise.after (Promise.run_times 1 (Promise.__init__ raise_ValueError [] ∅)))
    None
  = Promise.ResultRaises ValueError
  ∧ Promise.result
      (Promise.after (Promise.run_times 2 (Promise.__init__ return_42 [] ∅)))
      (Some 5)
    = Promise.ResultReturns (Py.AInt 42)
  ∧ Promise.result
      (Promise.after
         (Promise.run_times 1 (Promise.__init__ raise_KeyboardInterrupt [] ∅)))
      None
    = Promise.ResultReturns Py.ANone.
Proof.
  split_and!.
  - destruct (Promise_result_after_run raise_ValueError [] ∅ 0 None)
      as (_ & H & _).
    apply H. split; reflexivity.
  - destruct (Promise_result_after_run return_42 [] ∅ 1 (Some 5))
      as (_ & _ & H & _).
    apply H. reflexivity.
  - destruct (Promise_result_after_run raise_KeyboardInterrupt [] ∅ 0 None)
      as (_ & _ & _ & H).
    apply (H interrupt); reflexivity.
Defined.
